(** * SuperRareService: a shallow embedding of [src/platform/SuperRareService.ts]

    The service is a class whose methods are asynchronous: each returns a
    promise that either resolves to a value or rejects with an error, and on
    the way issues read-only calls to the chain client, to [fetch] and to
    [console.log].  The embedding keeps all three aspects:

    - a promise is a value of [Async A]: the trace of the external calls the
      method made, in order, and its [Outcome] (resolved or rejected);
    - the chain client and [fetch] are oracles carried by the service
      object and by the runtime, so every statement holds for every
      behaviour of these collaborators;
    - [bigint] is [Z], with [/] on [bigint] as [Z.quot] (it truncates
      towards zero); a number is a binary64 float. *)

From Stdlib Require Import ZArith NArith List String Ascii Bool Lia PrimFloat.
From Stdlib Require SpecFloat FloatOps.
Import ListNotations.
Set Warnings "-register-all".
Open Scope string_scope.
Open Scope Z_scope.

(** ** Values that cross the boundary *)

(** Errors a promise can reject with.  [Error] is [new Error(message)] of the
    service itself; [TypeError] is what a property access on [null] raises;
    [SyntaxError] is what [BigInt] raises on a string that is no integer
    literal; [External] is any failure of a collaborator (chain read,
    [fetch], [Response.json]). *)
Inductive JsError : Type :=
| Error (message : string)
| TypeError (message : string)
| SyntaxError (message : string)
| External (payload : string).

Inductive Outcome (A : Type) : Type :=
| Resolved (a : A)
| Rejected (e : JsError).
Arguments Resolved {A} a.
Arguments Rejected {A} e.

(** A value decoded from a contract call with the ABIs the service names:
    an [address] arrives as a string, a [uint256] as a non-negative
    [bigint]. *)
Inductive AbiValue : Type :=
| AbiAddress (a : string)
| AbiUint (n : N).

(** The result of [JSON.parse]: what [Response.json()] resolves to. *)
Inductive Json : Type :=
| JNull
| JBool (b : bool)
| JNumber (f : float)
| JString (s : string)
| JArray (items : list Json)
| JObject (props : list (string * Json)).

(** A JavaScript value read out of a parsed document: a property that is
    not there reads as [undefined]. *)
Inductive JsValue : Type :=
| JsUndefined
| JsJson (j : Json).

Inductive Abi : Type :=
| ERC721ABI
| OwnableABI
| SuperRareMarketplaceABI
| SuperRareV2ABI.

(** An argument passed to a contract function: a string or a [bigint]. *)
Inductive Arg : Type :=
| ArgString (s : string)
| ArgBigInt (z : Z).

(** What a method does to the outside world, in program order. *)
Inductive Event : Type :=
| ReadContract (address : string) (abi : Abi) (functionName : string)
    (args : list Arg)
| Fetch (uri : string)
| ConsoleLog (message : string).

(** ** Promises *)

Definition Async (A : Type) : Type := (list Event * Outcome A)%type.

Definition ret {A} (a : A) : Async A := ([], Resolved a).

Definition throw {A} (e : JsError) : Async A := ([], Rejected e).

Definition bind {A B} (m : Async A) (k : A -> Async B) : Async B :=
  match m with
  | (t, Resolved a) => let (t', o) := k a in ((t ++ t')%list, o)
  | (t, Rejected e) => (t, Rejected e)
  end.

(** [try { m } catch (error) { h }] *)
Definition try_catch {A} (m : Async A) (h : JsError -> Async A) : Async A :=
  match m with
  | (t, Resolved a) => (t, Resolved a)
  | (t, Rejected e) => let (t', o) := h e in ((t ++ t')%list, o)
  end.

Definition emit {A} (ev : Event) (o : Outcome A) : Async A := ([ev], o).

Definition trace {A} (m : Async A) : list Event := fst m.
Definition outcome {A} (m : Async A) : Outcome A := snd m.

Notation "x <- m ;; k" := (bind m (fun x => k))
  (at level 61, m at next level, right associativity).
Notation "m ;;; k" := (bind m (fun _ => k))
  (at level 61, right associativity).

(** ** Collaborators *)

(** [Response] of [fetch]: its [ok] flag and what [json()] settles to. *)
Record Response : Type := {
  ok : bool;
  json : Outcome Json
}.

(** The viem client, seen through the four view functions the service
    calls.  Each takes the address of the contract it is called on and the
    arguments of the call. *)
Record PublicClient : Type := {
  read_tokenSalePrices :
    string -> string -> Z -> string -> Outcome (list AbiValue);
  read_tokenCreator : string -> Z -> Outcome string;
  read_owner : string -> Outcome string;
  read_tokenURI : string -> Z -> Outcome string
}.

(** The built-ins of the host the service relies on: [BigInt] applied to a
    string ([None] when it throws a [SyntaxError]) and the global
    [fetch]. *)
Record Runtime : Type := {
  BigInt_of_string : string -> option Z;
  fetch : string -> Outcome Response
}.

(** ** Types of [src/types] *)

Record NFTExtraction (TChain TService : Type) : Type := {
  chain : TChain;
  contractAddress : string;
  nftId : string;
  service : TService
}.
Arguments chain {TChain TService} _.
Arguments contractAddress {TChain TService} _.
Arguments nftId {TChain TService} _.
Arguments service {TChain TService} _.

(** A JavaScript number is an IEEE 754 double. *)
Definition JsNumber : Type := float.

(** [Number(z)] for a [bigint] [z]: the double nearest to [z], ties going
    to the even mantissa, and an infinity past the range of doubles. *)
Definition Number (z : Z) : JsNumber :=
  FloatOps.SF2Prim
    (SpecFloat.binary_normalize FloatOps.prec FloatOps.emax z 0 false).
Arguments Number : simpl never.

(** The object literal [getUIData] returns.  [nftName] and [nftUri] hold
    whatever the document had under [name] and [image]. *)
Record UIData : Type := {
  ui_platformName : string;
  ui_platformLogoUrl : string;
  nftName : JsValue;
  nftUri : JsValue;
  tokenStandard : string;
  nftCreatorAddress : option string;
  dstChainId : JsNumber
}.

Record SalePrice : Type := {
  price : Z;
  token : AbiValue;
  seller : AbiValue
}.

(** ** JavaScript primitives used by the service *)

Definition is_float_zero_or_nan (f : float) : bool :=
  (PrimFloat.eqb f PrimFloat.zero || PrimFloat.is_nan f)%bool.

(** ToBoolean *)
Definition truthy (v : JsValue) : bool :=
  match v with
  | JsUndefined => false
  | JsJson JNull => false
  | JsJson (JBool b) => b
  | JsJson (JNumber f) => negb (is_float_zero_or_nan f)
  | JsJson (JString s) => negb (String.eqb s "")
  | JsJson (JArray _) => true
  | JsJson (JObject _) => true
  end.

Fixpoint lookup_prop (k : string) (props : list (string * Json)) : JsValue :=
  match props with
  | [] => JsUndefined
  | (k', v) :: rest => if String.eqb k k' then JsJson v else lookup_prop k rest
  end.

(** [tokenJson.k] for [k] one of [name], [image]: only an object can own
    such a property, no prototype of a parsed value defines one, and the
    access throws on [null]. *)
Definition get_prop (j : Json) (k : string) : Async JsValue :=
  match j with
  | JNull => throw (TypeError "Cannot read properties of null")
  | JObject props => ret (lookup_prop k props)
  | _ => ret JsUndefined
  end.

Definition is_upper (c : ascii) : bool :=
  let n := nat_of_ascii c in (Nat.leb 65 n && Nat.leb n 90)%bool.

Definition lower_char (c : ascii) : ascii :=
  if is_upper c then ascii_of_nat (nat_of_ascii c + 32) else c.

(** [String.prototype.toLowerCase], on the ASCII strings it is applied to
    here (a constant and a capture of hexadecimal digits). *)
Fixpoint toLowerCase (s : string) : string :=
  match s with
  | EmptyString => EmptyString
  | String c s' => String (lower_char c) (toLowerCase s')
  end.

(** *** The regular expression
    [/https:\/\/superrare\.com\/(0x[a-fA-F0-9]{40})/] *)

Definition is_hex (c : ascii) : bool :=
  let n := nat_of_ascii c in
  ((Nat.leb 48 n && Nat.leb n 57)
   || (Nat.leb 97 n && Nat.leb n 102)
   || (Nat.leb 65 n && Nat.leb n 70))%bool.

(** [[a-fA-F0-9]{n}] at the start of [s]: the digits consumed. *)
Fixpoint take_hex (n : nat) (s : string) : option string :=
  match n with
  | O => Some EmptyString
  | S n' =>
      match s with
      | EmptyString => None
      | String c s' =>
          if is_hex c then
            match take_hex n' s' with
            | Some h => Some (String c h)
            | None => None
            end
          else None
      end
  end.

(** [lit] at the start of [s]: what follows it. *)
Fixpoint strip_prefix (lit s : string) : option string :=
  match lit with
  | EmptyString => Some s
  | String c lit' =>
      match s with
      | EmptyString => None
      | String d s' => if Ascii.eqb c d then strip_prefix lit' s' else None
      end
  end.

Definition superrare_url_prefix : string := "https://superrare.com/".

(** The pattern anchored at the start of [s]: capture group 1. *)
Definition match_here (s : string) : option string :=
  match strip_prefix superrare_url_prefix s with
  | Some rest =>
      match strip_prefix "0x" rest with
      | Some digits =>
          match take_hex 40 digits with
          | Some h => Some ("0x" ++ h)
          | None => None
          end
      | None => None
      end
  | None => None
  end.

(** [sourceUrl.match(re)]: the pattern has no flags, so the match is the
    leftmost one; the result is [contractMatch[1]], [None] for [null]. *)
Fixpoint contractMatch (sourceUrl : string) : option string :=
  match match_here sourceUrl with
  | Some g => Some g
  | None =>
      match sourceUrl with
      | EmptyString => None
      | String _ s' => contractMatch s'
      end
  end.

(** ** The service *)

Definition SUPER_RARE_ADDRESS : string :=
  "0xb932a70a57673d89f4acffbe830e8ed7f75fb9e0".
Definition SUPER_RARE_MINTER_ADDRESS : string :=
  "0x6D7c44773C52D396F43c2D511B81aa168E9a7a42".

Record SuperRareService : Type := {
  platformName : string;
  platformLogoUrl : string;
  client : PublicClient
}.

Definition mintSignature : string :=
  "function buy(address _originContract, uint256 _tokenId, address _currencyAddress, uint256 _amount) external payable".

Section Service.

(** [ZERO_ADDRESS] comes from [src/config/constants]; the service only
    passes it on, so it is taken as given. *)
Variable ZERO_ADDRESS : string.
Variable rt : Runtime.

(** [BigInt(v)] for a decoded value [v]. *)
Definition BigInt (v : AbiValue) : Async Z :=
  match v with
  | AbiUint n => ret (Z.of_N n)
  | AbiAddress a =>
      match BigInt_of_string rt a with
      | Some z => ret z
      | None => throw (SyntaxError "Cannot convert to a BigInt")
      end
  end.

Definition isSaleValid (salePrice : option SalePrice) : bool :=
  match salePrice with
  | None => false
  | Some sp => if price sp =? 0 then false else true
  end.

Definition getFees : Z := 3.

Definition getSalePrices (this : SuperRareService)
    (contractAddress : string) (nftId : Z) : Async (option SalePrice) :=
  salePrice <-
    emit (ReadContract SUPER_RARE_MINTER_ADDRESS SuperRareMarketplaceABI
            "tokenSalePrices"
            [ArgString contractAddress; ArgBigInt nftId;
             ArgString ZERO_ADDRESS])
         (read_tokenSalePrices (client this) SUPER_RARE_MINTER_ADDRESS
            contractAddress nftId ZERO_ADDRESS) ;;
  match salePrice with
  | [s0; _; s2] =>
      p <- BigInt s2 ;;
      ret (Some {| price := p; token := s2; seller := s0 |})
  | _ => ret None
  end.

Definition getMinterAddress (this : SuperRareService)
    (contract : string) (tokenId : Z) : Async (option string) :=
  ret (Some SUPER_RARE_MINTER_ADDRESS).

Definition getMintSignature {TChain TService}
    (this : SuperRareService)
    (nftDetails : NFTExtraction TChain TService) : Async (option string) :=
  match BigInt_of_string rt (nftId nftDetails) with
  | None => throw (SyntaxError "Cannot convert to a BigInt")
  | Some id =>
      salePrice <- getSalePrices this (contractAddress nftDetails) id ;;
      if negb (isSaleValid salePrice) then ret None
      else ret (Some mintSignature)
  end.

Definition getUIData (this : SuperRareService)
    (signature contract : string) (tokenId dstChainId : Z)
    (sourceUrl : string) : Async (option UIData) :=
  let sellAddress :=
    if negb (String.eqb sourceUrl "") then
      match contractMatch sourceUrl with
      | Some m1 => m1
      | None => SUPER_RARE_ADDRESS
      end
    else SUPER_RARE_ADDRESS in
  owner <-
    (if String.eqb (toLowerCase sellAddress)
                   (toLowerCase SUPER_RARE_ADDRESS)
     then
       o <- emit (ReadContract sellAddress SuperRareV2ABI "tokenCreator"
                    [ArgBigInt tokenId])
                 (read_tokenCreator (client this) sellAddress tokenId) ;;
       ret (Some o)
     else
       try_catch
         (o <- emit (ReadContract sellAddress OwnableABI "owner" [])
                    (read_owner (client this) sellAddress) ;;
          ret (Some o))
         (fun _ =>
            emit (ConsoleLog
                    "Not ownable contract, nftCreatorAddress not found")
                 (Resolved None))) ;;
  tokenURI <-
    emit (ReadContract sellAddress ERC721ABI "tokenURI" [ArgBigInt tokenId])
         (read_tokenURI (client this) sellAddress tokenId) ;;
  tokenData <- emit (Fetch tokenURI) (fetch rt tokenURI) ;;
  if negb (ok tokenData) then throw (Error "Token data not found")
  else
    tokenJson <- ([], json tokenData) ;;
    name <- get_prop tokenJson "name" ;;
    if negb (truthy name) then throw (Error "Collection name not found")
    else
      image <- get_prop tokenJson "image" ;;
      if negb (truthy image)
      then throw (Error "Preview asset url not found")
      else
        ret (Some {|
          ui_platformName := platformName this;
          ui_platformLogoUrl := platformLogoUrl this;
          nftName := name;
          nftUri := image;
          tokenStandard := "erc721";
          nftCreatorAddress :=
            match owner with
            | Some o => if negb (String.eqb o "") then Some o else None
            | None => None
            end;
          dstChainId := Number dstChainId
        |}).

(** [unit] is [None] when the caller leaves it out (default [1n]);
    [sourceUrl] is [None] when it is left out. *)
Definition getPrice (this : SuperRareService)
    (contractAddress : string) (nftId : Z)
    (signature userAddress : string)
    (unit : option Z) (sourceUrl : option string) : Async (option Z) :=
  let unit := match unit with Some u => u | None => 1 end in
  let sellAddress :=
    match sourceUrl with
    | Some url =>
        if negb (String.eqb url "") then
          match contractMatch url with
          | Some m1 => m1
          | None => SUPER_RARE_ADDRESS
          end
        else SUPER_RARE_ADDRESS
    | None => SUPER_RARE_ADDRESS
    end in
  salePrice <- getSalePrices this sellAddress nftId ;;
  if negb (isSaleValid salePrice) then ret None
  else
    match salePrice with
    | Some sp =>
        ret (Some ((Z.quot (price sp * getFees) 100 + price sp) * unit))
    | None => throw (TypeError "Cannot read properties of undefined")
    end.

Definition getArgs (this : SuperRareService)
    (contractAddress : string) (tokenId : Z)
    (senderAddress signature : string) (price quantity : Z)
    (profileOwnerAddress sourceUrl : string) : Async (list Arg) :=
  let sellAddress :=
    if negb (String.eqb sourceUrl "") then
      match contractMatch sourceUrl with
      | Some m1 => m1
      | None => SUPER_RARE_ADDRESS
      end
    else SUPER_RARE_ADDRESS in
  ret [ArgString sellAddress; ArgBigInt tokenId;
       ArgString ZERO_ADDRESS; ArgBigInt price].

End Service.

(** ** Vocabulary of the statements *)

(** The selling contract a source URL stands for: the value the local
    [sellAddress] has once the block at the head of [getUIData], [getPrice]
    and [getArgs] has run ([None] is a [sourceUrl] left out). *)
Definition sellAddressOf (sourceUrl : option string) : string :=
  match sourceUrl with
  | Some url =>
      if negb (String.eqb url "") then
        match contractMatch url with
        | Some m1 => m1
        | None => SUPER_RARE_ADDRESS
        end
      else SUPER_RARE_ADDRESS
  | None => SUPER_RARE_ADDRESS
  end.

Fixpoint all_hex (s : string) : bool :=
  match s with
  | EmptyString => true
  | String c s' => (is_hex c && all_hex s')%bool
  end.

(** [0x] followed by exactly forty hexadecimal digits. *)
Definition is_contract_address (a : string) : bool :=
  match strip_prefix "0x" a with
  | Some h => (Nat.eqb (String.length h) 40 && all_hex h)%bool
  | None => false
  end.

(** [url] carries the segment [https://superrare.com/<a>] at offset [n]. *)
Definition embedded_at (url : string) (n : nat) (a : string) : Prop :=
  exists pre post,
    url = pre ++ superrare_url_prefix ++ a ++ post
    /\ String.length pre = n
    /\ is_contract_address a = true.

(** [a] is the address of the leftmost such segment of [url]. *)
Definition first_embedded (url : string) (a : string) : Prop :=
  exists n,
    embedded_at url n a
    /\ forall m a', embedded_at url m a' -> (n <= m)%nat.

(** The contracts a trace reads from, in order. *)
Fixpoint contracts_read (t : list Event) : list string :=
  match t with
  | [] => []
  | ReadContract address _ _ _ :: t' => address :: contracts_read t'
  | _ :: t' => contracts_read t'
  end.

(** A name or preview asset that is missing ([undefined], [null]) or the
    empty string. *)
Definition empty_or_missing (v : JsValue) : bool :=
  match v with
  | JsUndefined => true
  | JsJson JNull => true
  | JsJson (JString s) => String.eqb s ""
  | _ => false
  end.

(** The document has no field [k] of its own. *)
Definition lacks_field (j : Json) (k : string) : Prop :=
  match j with
  | JObject props => lookup_prop k props = JsUndefined
  | _ => True
  end.

(** The same service on a client whose [owner()] read is replaced. *)
Definition with_owner (this : SuperRareService)
    (f : string -> Outcome string) : SuperRareService :=
  {| platformName := platformName this;
     platformLogoUrl := platformLogoUrl this;
     client :=
       {| read_tokenSalePrices := read_tokenSalePrices (client this);
          read_tokenCreator := read_tokenCreator (client this);
          read_owner := f;
          read_tokenURI := read_tokenURI (client this) |} |}.

(** Two services that show the same platform and whose clients answer
    alike for token [id] of contract [a]. *)
Definition same_reads_at (a : string) (id : Z)
    (this this' : SuperRareService) : Prop :=
  platformName this = platformName this'
  /\ platformLogoUrl this = platformLogoUrl this'
  /\ read_tokenCreator (client this) a id
     = read_tokenCreator (client this') a id
  /\ read_owner (client this) a = read_owner (client this') a
  /\ read_tokenURI (client this) a id = read_tokenURI (client this') a id.

(** The three methods that take a [sourceUrl] all work on contract [a]:
    [getArgs] passes it as the first argument; [getPrice] asks the
    marketplace for the sale of a token of [a], once, and its result hangs
    on the chain through that answer alone; every contract [getUIData]
    reads from is [a] (it reads from one at least), and its result hangs
    on the chain through the answers for [a] alone. *)
Definition resolve_against (ZERO_ADDRESS : string) (rt : Runtime)
    (this : SuperRareService) (url a : string) : Prop :=
  (forall c id sender sig p q po,
      exists rest,
        outcome (getArgs ZERO_ADDRESS this c id sender sig p q po url)
        = Resolved (ArgString a :: rest))
  /\ (forall c id sig user unit,
        trace (getPrice ZERO_ADDRESS rt this c id sig user unit (Some url))
        = [ReadContract SUPER_RARE_MINTER_ADDRESS SuperRareMarketplaceABI
             "tokenSalePrices"
             [ArgString a; ArgBigInt id; ArgString ZERO_ADDRESS]])
  /\ (forall this' c id sig user unit,
        read_tokenSalePrices (client this) SUPER_RARE_MINTER_ADDRESS a id
          ZERO_ADDRESS
        = read_tokenSalePrices (client this') SUPER_RARE_MINTER_ADDRESS a id
            ZERO_ADDRESS ->
        getPrice ZERO_ADDRESS rt this c id sig user unit (Some url)
        = getPrice ZERO_ADDRESS rt this' c id sig user unit (Some url))
  /\ (forall sig c id dst,
        exists k,
          contracts_read (trace (getUIData rt this sig c id dst url))
          = repeat a (S k))
  /\ (forall this' sig c id dst,
        same_reads_at a id this this' ->
        getUIData rt this sig c id dst url
        = getUIData rt this' sig c id dst url).

(** No sale to buy: no record, or a record with price zero. *)
Definition no_active_sale (salePrice : option SalePrice) : Prop :=
  salePrice = None \/ exists sp, salePrice = Some sp /\ price sp = 0.

(** The ways the metadata of token [id] of contract [sell] can fail to
    arrive complete, once its URI has been read from the chain. *)
Inductive metadata_failure (rt : Runtime) (this : SuperRareService)
    (sell : string) (id : Z) : Prop :=
| fetch_rejected uri e :
    read_tokenURI (client this) sell id = Resolved uri ->
    fetch rt uri = Rejected e ->
    metadata_failure rt this sell id
| response_not_ok uri resp :
    read_tokenURI (client this) sell id = Resolved uri ->
    fetch rt uri = Resolved resp ->
    ok resp = false ->
    metadata_failure rt this sell id
| body_not_json uri resp e :
    read_tokenURI (client this) sell id = Resolved uri ->
    fetch rt uri = Resolved resp ->
    json resp = Rejected e ->
    metadata_failure rt this sell id
| field_missing uri resp doc k :
    read_tokenURI (client this) sell id = Resolved uri ->
    fetch rt uri = Resolved resp ->
    json resp = Resolved doc ->
    k = "name" \/ k = "image" ->
    lacks_field doc k ->
    metadata_failure rt this sell id.

(** The test [getUIData] makes to tell the default contract from a
    third-party one. *)
Definition is_default_contract (sell : string) : bool :=
  String.eqb (toLowerCase sell) (toLowerCase SUPER_RARE_ADDRESS).

(** The URIs a trace fetches, in order. *)
Fixpoint fetches (t : list Event) : list string :=
  match t with
  | [] => []
  | Fetch uri :: t' => uri :: fetches t'
  | _ :: t' => fetches t'
  end.

(** The messages a trace logs, in order. *)
Fixpoint logged (t : list Event) : list string :=
  match t with
  | [] => []
  | ConsoleLog m :: t' => m :: logged t'
  | _ :: t' => logged t'
  end.

(** The creator lookup of [getUIData] on [sell] does not reject: [sell] is
    a third-party contract (whose [owner()] failure is caught), or the
    [tokenCreator] read of the default contract resolves. *)
Definition creator_lookup_passes (this : SuperRareService)
    (sell : string) (id : Z) : Prop :=
  is_default_contract sell = false
  \/ exists o, read_tokenCreator (client this) sell id = Resolved o.

(** [owner ? { nftCreatorAddress: owner } : {}] *)
Definition creator_field (owner : string) : option string :=
  if String.eqb owner "" then None else Some owner.


(** ** Sample collaborators, used to run the statements on inputs *)

Module Sample.

Definition zero : string := "0x0000000000000000000000000000000000000000".
Definition seller_address : string := "0x1111111111111111111111111111111111111111".
Definition creator : string := "0x2222222222222222222222222222222222222222".
Definition collection : string :=
  "0xAbcdef0123456789abcdef0123456789abcdef01".
Definition listing : string :=
  "https://superrare.com/0xAbcdef0123456789abcdef0123456789abcdef01/art-7".
Definition v2_listing : string := "https://superrare.com/artwork-v2/art-7".

(** A marketplace that lists every token of the default collection at
    50 wei and has a cleared (zero) record for every other one; the
    collections are not ownable. *)
Definition chain_client : PublicClient :=
  {| read_tokenSalePrices := fun _ origin _ currency =>
       Resolved [AbiAddress seller_address; AbiAddress currency;
                 AbiUint (if String.eqb origin SUPER_RARE_ADDRESS
                          then 50 else 0)];
     read_tokenCreator := fun _ _ => Resolved creator;
     read_owner := fun _ => Rejected (External "execution reverted");
     read_tokenURI := fun _ _ => Resolved "https://meta.example/7.json" |}.

Definition svc : SuperRareService :=
  {| platformName := "SuperRare";
     platformLogoUrl := "https://superrare.com/logo.png";
     client := chain_client |}.

Definition complete_doc : Json :=
  JObject [("name", JString "Art"); ("image", JString "ipfs://art")].
Definition doc_without_image : Json := JObject [("name", JString "Art")].

Definition runtime_serving (doc : Json) : Runtime :=
  {| BigInt_of_string := fun s => if String.eqb s "7" then Some 7 else None;
     fetch := fun _ => Resolved {| ok := true; json := Resolved doc |} |}.

Definition extraction : NFTExtraction unit unit :=
  {| chain := tt; contractAddress := collection; nftId := "7";
     service := tt |}.

(** A client that cannot reach the chain. *)
Definition offline_client : PublicClient :=
  {| read_tokenSalePrices := fun _ _ _ _ => Rejected (External "timeout");
     read_tokenCreator := fun _ _ => Rejected (External "timeout");
     read_owner := fun _ => Rejected (External "timeout");
     read_tokenURI := fun _ _ => Rejected (External "timeout") |}.

Definition offline_svc : SuperRareService :=
  {| platformName := "SuperRare";
     platformLogoUrl := "https://superrare.com/logo.png";
     client := offline_client |}.

(** A listing that spells the default contract in capitals. *)
Definition capitals : string := "0xB932A70A57673D89F4ACFFBE830E8ED7F75FB9E0".
Definition capitals_listing : string :=
  "https://superrare.com/0xB932A70A57673D89F4ACFFBE830E8ED7F75FB9E0/art-7".

(** An extraction of token 7 of the default contract. *)
Definition default_extraction : NFTExtraction unit unit :=
  {| chain := tt; contractAddress := SUPER_RARE_ADDRESS; nftId := "7";
     service := tt |}.

Definition runtime_answering (resp : Response) : Runtime :=
  {| BigInt_of_string := fun s => if String.eqb s "7" then Some 7 else None;
     fetch := fun _ => Resolved resp |}.

End Sample.

(** ** The regular expression finds the leftmost embedded address *)

Lemma append_assoc (a b c : string) : (a ++ b) ++ c = a ++ (b ++ c).
Proof.
  induction a as [|x a IH]; simpl; [reflexivity | now rewrite IH].
Qed.

Lemma strip_prefix_spec (lit s r : string) :
  strip_prefix lit s = Some r <-> s = lit ++ r.
Proof.
  revert s. induction lit as [|c lit IH]; intros s; simpl.
  - split; [intros [= ->] | intros ->]; reflexivity.
  - destruct s as [|d s].
    + split; discriminate.
    + destruct (Ascii.eqb c d) eqn:E.
      * apply Ascii.eqb_eq in E. subst d. rewrite IH.
        split; [intros -> | intros [= ->]]; reflexivity.
      * apply Ascii.eqb_neq in E.
        split; [discriminate | intros [= Hd _]; congruence].
  Qed.

Lemma take_hex_spec (n : nat) (s h : string) :
  take_hex n s = Some h <->
  exists post, s = h ++ post /\ String.length h = n /\ all_hex h = true.
Proof.
  revert s h. induction n as [|n IH]; intros s h; simpl.
  - split.
    + intros [= <-]. exists s. repeat split.
    + intros (post & _ & Hl & _). destruct h; [reflexivity | discriminate].
  - destruct s as [|c s].
    + split; [discriminate |].
      intros (post & Hs & Hl & _). destruct h; discriminate.
    + destruct (is_hex c) eqn:Hc.
      * destruct (take_hex n s) as [h'|] eqn:Ht.
        -- apply IH in Ht. destruct Ht as (post & -> & Hl & Hh).
           split.
           ++ intros [= <-]. exists post. simpl. rewrite Hc, Hh, Hl.
              repeat split.
           ++ intros (post' & Hs & Hl' & Hh').
              destruct h as [|d h]; [discriminate |].
              simpl in Hs, Hl', Hh'. injection Hs as <- Hs.
              apply andb_true_iff in Hh' as [_ Hh'].
              assert (Hx : take_hex n (h' ++ post) = Some h).
              { apply IH. exists post'. repeat split; auto. }
              assert (Hy : take_hex n (h' ++ post) = Some h').
              { apply IH. exists post. repeat split; auto. }
              congruence.
        -- split; [discriminate |].
           intros (post' & Hs & Hl' & Hh').
           destruct h as [|d h]; [discriminate |].
           simpl in Hs, Hl', Hh'. injection Hs as <- Hs.
           apply andb_true_iff in Hh' as [_ Hh'].
           assert (Hx : take_hex n s = Some h).
           { apply IH. exists post'. repeat split; auto. }
           congruence.
      * split; [discriminate |].
        intros (post' & Hs & Hl' & Hh').
        destruct h as [|d h]; [discriminate |].
        simpl in Hs, Hh'. injection Hs as <- Hs.
        rewrite Hc in Hh'. discriminate.
Qed.

Lemma match_here_spec (s a : string) :
  match_here s = Some a <-> embedded_at s 0 a.
Proof.
  unfold match_here, embedded_at, is_contract_address. split.
  - destruct (strip_prefix superrare_url_prefix s) as [rest|] eqn:E1;
      [| discriminate].
    destruct (strip_prefix "0x" rest) as [digits|] eqn:E2; [| discriminate].
    destruct (take_hex 40 digits) as [h|] eqn:E3; [| discriminate].
    intros [= <-].
    apply strip_prefix_spec in E1. apply strip_prefix_spec in E2.
    apply take_hex_spec in E3. destruct E3 as (post & -> & Hl & Hh).
    exists "", post. subst. repeat split.
    simpl. rewrite Hl, Hh. reflexivity.
  - intros (pre & post & -> & Hl & Ha).
    destruct pre; [| discriminate].
    change ("" ++ superrare_url_prefix ++ a ++ post)
      with (superrare_url_prefix ++ a ++ post).
    destruct (strip_prefix "0x" a) as [h|] eqn:E; [| discriminate].
    apply strip_prefix_spec in E. subst a.
    apply andb_true_iff in Ha as [Hlen Hh]. apply Nat.eqb_eq in Hlen.
    assert (E1 : strip_prefix superrare_url_prefix
                   (superrare_url_prefix ++ ("0x" ++ h) ++ post)
                 = Some (("0x" ++ h) ++ post))
      by now apply strip_prefix_spec.
    rewrite E1.
    assert (E2 : strip_prefix "0x" (("0x" ++ h) ++ post) = Some (h ++ post))
      by (apply strip_prefix_spec; now rewrite append_assoc).
    rewrite E2.
    assert (E3 : take_hex 40 (h ++ post) = Some h).
    { apply take_hex_spec. exists post. repeat split; auto. }
    rewrite E3. reflexivity.
Qed.

Lemma embedded_at_S (c : ascii) (s : string) (n : nat) (a : string) :
  embedded_at (String c s) (S n) a <-> embedded_at s n a.
Proof.
  unfold embedded_at. split.
  - intros (pre & post & Hs & Hl & Ha).
    destruct pre as [|d pre]; [discriminate |].
    simpl in Hs, Hl. injection Hs as _ Hs. injection Hl as Hl.
    exists pre, post. auto.
  - intros (pre & post & -> & Hl & Ha).
    exists (String c pre), post. simpl. rewrite Hl. auto.
Qed.

Lemma embedded_at_empty (n : nat) (a : string) : ~ embedded_at "" n a.
Proof.
  intros (pre & post & Hs & _ & _). destruct pre; discriminate.
Qed.

Lemma embedded_at_functional (url : string) (n : nat) (a a' : string) :
  embedded_at url n a -> embedded_at url n a' -> a = a'.
Proof.
  revert url. induction n as [|n IH]; intros url H H'.
  - apply match_here_spec in H, H'. congruence.
  - destruct url as [|c s]; [now apply embedded_at_empty in H |].
    apply embedded_at_S in H, H'. eauto.
Qed.

Lemma contractMatch_first (url a : string) :
  contractMatch url = Some a -> first_embedded url a.
Proof.
  induction url as [|c s IH]; simpl.
  - discriminate.
  - destruct (match_here (String c s)) as [g|] eqn:E.
    + intros [= <-]. exists 0%nat. split; [now apply match_here_spec |].
      intros; lia.
    + intros H. destruct (IH H) as (n & Hn & Hmin).
      exists (S n). split; [now apply embedded_at_S |].
      intros m a' Hm. destruct m as [|m].
      * apply match_here_spec in Hm. congruence.
      * apply embedded_at_S in Hm. apply Hmin in Hm. lia.
Qed.

Lemma contractMatch_none (url : string) :
  contractMatch url = None -> forall n a, ~ embedded_at url n a.
Proof.
  induction url as [|c s IH]; simpl.
  - intros _ n a. apply embedded_at_empty.
  - destruct (match_here (String c s)) as [g|] eqn:E; [discriminate |].
    intros H n a Hn. destruct n as [|n].
    + apply match_here_spec in Hn. congruence.
    + apply embedded_at_S in Hn. exact (IH H n a Hn).
Qed.

Lemma first_embedded_contractMatch (url a : string) :
  first_embedded url a -> contractMatch url = Some a.
Proof.
  intros (n & Hn & Hmin).
  destruct (contractMatch url) as [a'|] eqn:E.
  - apply contractMatch_first in E. destruct E as (n' & Hn' & Hmin').
    assert (n = n') by (apply Hmin in Hn'; apply Hmin' in Hn; lia).
    subst n'. f_equal. eapply embedded_at_functional; eauto.
  - exfalso. eapply contractMatch_none; eauto.
Qed.

Lemma embedded_nonempty (url : string) (n : nat) (a : string) :
  embedded_at url n a -> String.eqb url "" = false.
Proof.
  intros H. destruct url; [now apply embedded_at_empty in H | reflexivity].
Qed.

Lemma sellAddressOf_embedded (url a : string) :
  first_embedded url a -> sellAddressOf (Some url) = a.
Proof.
  intros H. unfold sellAddressOf.
  destruct H as (n & Hn & Hmin).
  rewrite (embedded_nonempty _ _ _ Hn). simpl.
  now rewrite (first_embedded_contractMatch url a) by (exists n; auto).
Qed.

Lemma sellAddressOf_default (url : string) :
  (forall n a, ~ embedded_at url n a) ->
  sellAddressOf (Some url) = SUPER_RARE_ADDRESS.
Proof.
  intros H. unfold sellAddressOf.
  destruct (negb (String.eqb url "")); [| reflexivity].
  destruct (contractMatch url) as [a|] eqn:E; [| reflexivity].
  apply contractMatch_first in E. destruct E as (n & Hn & _).
  now apply H in Hn.
Qed.

(** ** [Number] rounds *)

(** Small chain ids convert exactly; past 2^53 neighbouring integers
    share a double, and past the range of doubles the result is
    infinite. *)
Lemma Number_rounds :
  Number 137 = 137%float
  /\ Number (2 ^ 53 + 1) = Number (2 ^ 53)
  /\ Number (2 ^ 53 + 3) = Number (2 ^ 53 + 4)
  /\ Number (- (2 ^ 53 + 1)) = Number (- 2 ^ 53)
  /\ Number 0 = 0%float
  /\ Number (2 ^ 1024) = PrimFloat.infinity.
Proof. repeat split; vm_compute; reflexivity. Qed.

(** ** Unfolding the methods *)

Lemma getArgs_eq ZERO (this : SuperRareService) c id sender sig p q po url :
  getArgs ZERO this c id sender sig p q po url
  = ret [ArgString (sellAddressOf (Some url)); ArgBigInt id;
         ArgString ZERO; ArgBigInt p].
Proof. reflexivity. Qed.

Lemma getSalePrices_trace ZERO rt this a id :
  trace (getSalePrices ZERO rt this a id)
  = [ReadContract SUPER_RARE_MINTER_ADDRESS SuperRareMarketplaceABI
       "tokenSalePrices" [ArgString a; ArgBigInt id; ArgString ZERO]].
Proof.
  unfold getSalePrices, emit, bind, trace.
  destruct (read_tokenSalePrices _ _ _ _ _) as [l|e]; [| reflexivity].
  destruct l as [|s0 [|s1 [|s2 [|s3 l]]]]; try reflexivity.
  unfold BigInt. destruct s2 as [x|n]; [| reflexivity].
  destruct (BigInt_of_string rt x); reflexivity.
Qed.

Lemma getPrice_eq ZERO rt this c id sig user unit url :
  getPrice ZERO rt this c id sig user unit url
  = (salePrice <- getSalePrices ZERO rt this (sellAddressOf url) id ;;
     if negb (isSaleValid salePrice) then ret None
     else
       match salePrice with
       | Some sp =>
           ret (Some ((Z.quot (price sp * getFees) 100 + price sp)
                      * match unit with Some u => u | None => 1 end))
       | None => throw (TypeError "Cannot read properties of undefined")
       end).
Proof. reflexivity. Qed.

Lemma getPrice_trace ZERO rt this c id sig user unit url :
  trace (getPrice ZERO rt this c id sig user unit url)
  = [ReadContract SUPER_RARE_MINTER_ADDRESS SuperRareMarketplaceABI
       "tokenSalePrices"
       [ArgString (sellAddressOf url); ArgBigInt id; ArgString ZERO]].
Proof.
  rewrite getPrice_eq.
  pose proof (getSalePrices_trace ZERO rt this (sellAddressOf url) id) as H.
  destruct (getSalePrices ZERO rt this (sellAddressOf url) id) as [t o].
  unfold trace in *. simpl in H. subst t. unfold bind.
  destruct o as [sp|e]; [| reflexivity].
  destruct (negb (isSaleValid sp)); [reflexivity |].
  destruct sp; reflexivity.
Qed.

Lemma isSaleValid_nonzero (salePrice : option SalePrice) :
  isSaleValid salePrice = true
  <-> exists sp, salePrice = Some sp /\ price sp <> 0.
Proof.
  unfold isSaleValid. split.
  - destruct salePrice as [sp|]; [| discriminate].
    destruct (price sp =? 0) eqn:E; [discriminate |].
    intros _. exists sp. split; [reflexivity |].
    now apply Z.eqb_neq.
  - intros (sp & -> & Hp). apply Z.eqb_neq in Hp. now rewrite Hp.
Qed.

Lemma no_active_sale_invalid (salePrice : option SalePrice) :
  no_active_sale salePrice -> isSaleValid salePrice = false.
Proof.
  unfold isSaleValid.
  intros [-> | (sp & -> & Hp)]; [reflexivity |]. now rewrite Hp.
Qed.

(** ** [getUIData], step by step *)

Lemma getUIData_eq rt (this : SuperRareService) sig c id dst url :
  getUIData rt this sig c id dst url
  = let sellAddress := sellAddressOf (Some url) in
    owner <-
      (if String.eqb (toLowerCase sellAddress)
                     (toLowerCase SUPER_RARE_ADDRESS)
       then
         o <- emit (ReadContract sellAddress SuperRareV2ABI "tokenCreator"
                      [ArgBigInt id])
                   (read_tokenCreator (client this) sellAddress id) ;;
         ret (Some o)
       else
         try_catch
           (o <- emit (ReadContract sellAddress OwnableABI "owner" [])
                      (read_owner (client this) sellAddress) ;;
            ret (Some o))
           (fun _ =>
              emit (ConsoleLog
                      "Not ownable contract, nftCreatorAddress not found")
                   (Resolved None))) ;;
    tokenURI <-
      emit (ReadContract sellAddress ERC721ABI "tokenURI" [ArgBigInt id])
           (read_tokenURI (client this) sellAddress id) ;;
    tokenData <- emit (Fetch tokenURI) (fetch rt tokenURI) ;;
    if negb (ok tokenData) then throw (Error "Token data not found")
    else
      tokenJson <- ([], json tokenData) ;;
      name <- get_prop tokenJson "name" ;;
      if negb (truthy name) then throw (Error "Collection name not found")
      else
        image <- get_prop tokenJson "image" ;;
        if negb (truthy image)
        then throw (Error "Preview asset url not found")
        else
          ret (Some {|
            ui_platformName := platformName this;
            ui_platformLogoUrl := platformLogoUrl this;
            nftName := name;
            nftUri := image;
            tokenStandard := "erc721";
            nftCreatorAddress :=
              match owner with
              | Some o => if negb (String.eqb o "") then Some o else None
              | None => None
              end;
            dstChainId := Number dst
          |}).
Proof. reflexivity. Qed.

(** Case analysis on everything the method branches on. *)
Ltac branch :=
  match goal with
  | |- context [match ?x with _ => _ end] =>
      lazymatch x with
      | context [match _ with _ => _ end] => fail
      | _ => destruct x eqn:?
      end
  end.

Ltac run_getUIData url :=
  rewrite getUIData_eq; cbv zeta;
  generalize (sellAddressOf (Some url)); intro;
  unfold get_prop, bind, try_catch, emit, ret, throw, trace, outcome.

Lemma getUIData_contracts_read rt this sig c id dst url :
  exists k,
    contracts_read (trace (getUIData rt this sig c id dst url))
    = repeat (sellAddressOf (Some url)) (S k).
Proof.
  run_getUIData url.
  repeat branch;
    first [ exists 0%nat; reflexivity | exists 1%nat; reflexivity ].
Qed.

Lemma resolve_against_sellAddressOf ZERO rt this url :
  resolve_against ZERO rt this url (sellAddressOf (Some url)).
Proof.
  split; [| split; [| split; [| split]]].
  - intros. eexists. rewrite getArgs_eq. reflexivity.
  - intros. apply getPrice_trace.
  - intros this' c id sig user unit H. rewrite !getPrice_eq.
    unfold getSalePrices. now rewrite H.
  - intros. apply getUIData_contracts_read.
  - intros this' sig c id dst (Hn & Hl & Hc & Ho & Hu).
    rewrite !getUIData_eq. cbv zeta. now rewrite Hn, Hl, Hc, Ho, Hu.
Qed.

Lemma truthy_not_empty (v : JsValue) :
  truthy v = true -> empty_or_missing v = false.
Proof.
  destruct v as [|[| | | s | |]]; simpl; try congruence.
  now destruct (String.eqb s "").
Qed.

(** ** Results *)

(** C1. For a valid sale whose on-chain amount is [P], [getPrice] resolves
    to [(P * fee / 100 + P) * unit] with the fee percent 3 and truncating
    division: [unit] times [P + floor (P * 3 / 100)], and exactly
    [P + floor (P * 3 / 100)] for one unit.  The fee is taken on the base
    price, and the sum is multiplied by the unit count afterwards. *)
Theorem C1_getPrice_fee_then_unit
    (ZERO : string) (rt : Runtime) (this : SuperRareService)
    (c : string) (id : Z) (sig user : string)
    (unit : option Z) (url : option string) (s0 s1 : AbiValue) (p : N) :
  read_tokenSalePrices (client this) SUPER_RARE_MINTER_ADDRESS
    (sellAddressOf url) id ZERO = Resolved [s0; s1; AbiUint p] ->
  p <> 0%N ->
  let P := Z.of_N p in
  let U := match unit with Some u => u | None => 1 end in
  outcome (getPrice ZERO rt this c id sig user unit url)
  = Resolved (Some ((Z.quot (P * getFees) 100 + P) * U))
  /\ getFees = 3
  /\ (Z.quot (P * getFees) 100 + P) * U = U * (P + (P * 3) / 100)
  /\ (U = 1 ->
      outcome (getPrice ZERO rt this c id sig user unit url)
      = Resolved (Some (P + (P * 3) / 100))).
Proof.
  intros Hread Hp P U.
  assert (HP : 0 < P) by (unfold P; lia).
  assert (Hout : outcome (getPrice ZERO rt this c id sig user unit url)
                 = Resolved (Some ((Z.quot (P * getFees) 100 + P) * U))).
  { rewrite getPrice_eq. unfold getSalePrices, emit, bind, outcome.
    rewrite Hread. simpl.
    destruct (Z.of_N p =? 0) eqn:E; [apply Z.eqb_eq in E; lia |].
    reflexivity. }
  assert (Hq : Z.quot (P * getFees) 100 = (P * 3) / 100).
  { unfold getFees. apply Z.quot_div_nonneg; lia. }
  repeat split.
  - exact Hout.
  - rewrite Hq. ring.
  - intros HU. rewrite Hout, Hq, HU. f_equal. f_equal. ring.
Qed.

Lemma C1_witness :
  outcome (getPrice Sample.zero (Sample.runtime_serving Sample.complete_doc)
             Sample.svc Sample.collection 7 mintSignature Sample.seller_address
             (Some 2) None)
  = Resolved (Some 102).
Proof.
  pose proof (C1_getPrice_fee_then_unit Sample.zero
                (Sample.runtime_serving Sample.complete_doc) Sample.svc
                Sample.collection 7 mintSignature Sample.seller_address
                (Some 2) None (AbiAddress Sample.seller_address)
                (AbiAddress Sample.zero) 50%N) as H.
  simpl in H. apply H; [reflexivity | discriminate].
Defined.

(** C2. For every sale record (its price an unsigned integer),
    [isSaleValid] is true if and only if the record is present and its
    price is strictly greater than zero; an absent record or a zero price
    makes it false. *)
Theorem C2_isSaleValid_iff_positive (salePrice : option SalePrice) :
  (forall sp, salePrice = Some sp -> 0 <= price sp) ->
  (isSaleValid salePrice = true
   <-> exists sp, salePrice = Some sp /\ 0 < price sp)
  /\ (salePrice = None -> isSaleValid salePrice = false)
  /\ (forall sp, salePrice = Some sp -> price sp = 0 ->
        isSaleValid salePrice = false).
Proof.
  intros Hunsigned. split; [| split].
  - rewrite isSaleValid_nonzero. split.
    + intros (sp & Hsp & Hne). exists sp. split; [exact Hsp |].
      specialize (Hunsigned sp Hsp). lia.
    + intros (sp & Hsp & Hlt). exists sp. split; [exact Hsp | lia].
  - intros ->. reflexivity.
  - intros sp -> Hzero. apply no_active_sale_invalid.
    right. exists sp. auto.
Qed.

Lemma C2_witness :
  isSaleValid (Some {| price := 50; token := AbiAddress Sample.zero;
                       seller := AbiAddress Sample.seller_address |}) = true.
Proof.
  apply (proj1 (C2_isSaleValid_iff_positive
                  (Some {| price := 50; token := AbiAddress Sample.zero;
                           seller := AbiAddress Sample.seller_address |})
                  ltac:(intros sp [= <-]; simpl; lia))).
  eexists. split; [reflexivity | simpl; lia].
Defined.

(** C3. When the sale record a method reads is absent or has price zero,
    the method resolves to [undefined]: [getMintSignature] gives no
    signature for the record of the extraction's contract and token,
    [getPrice] gives no price for the record of the selling contract and
    token. *)
Theorem C3_no_sale_no_signature_no_price
    {TChain TService : Type} (ZERO : string) (rt : Runtime)
    (this : SuperRareService) (nftDetails : NFTExtraction TChain TService)
    (tokenId : Z) (c : string) (nftId' : Z) (sig user : string)
    (unit : option Z) (url : option string) (salePrice : option SalePrice) :
  (BigInt_of_string rt (nftId nftDetails) = Some tokenId ->
   outcome (getSalePrices ZERO rt this (contractAddress nftDetails) tokenId)
   = Resolved salePrice ->
   no_active_sale salePrice ->
   outcome (getMintSignature ZERO rt this nftDetails) = Resolved None)
  /\ (outcome (getSalePrices ZERO rt this (sellAddressOf url) nftId')
      = Resolved salePrice ->
      no_active_sale salePrice ->
      outcome (getPrice ZERO rt this c nftId' sig user unit url)
      = Resolved None).
Proof.
  split.
  - intros Hid Hrec Hno. unfold getMintSignature. rewrite Hid.
    destruct (getSalePrices _ _ _ _ _) as [t o]. unfold outcome in *.
    simpl in Hrec. subst o. unfold bind.
    now rewrite (no_active_sale_invalid _ Hno).
  - intros Hrec Hno. rewrite getPrice_eq.
    destruct (getSalePrices _ _ _ _ _) as [t o]. unfold outcome in *.
    simpl in Hrec. subst o. unfold bind.
    now rewrite (no_active_sale_invalid _ Hno).
Qed.

Lemma C3_witness :
  outcome (getMintSignature Sample.zero
             (Sample.runtime_serving Sample.complete_doc) Sample.svc
             Sample.extraction)
  = Resolved None
  /\ outcome (getPrice Sample.zero
               (Sample.runtime_serving Sample.complete_doc) Sample.svc
               Sample.collection 7 mintSignature Sample.seller_address None
               (Some Sample.listing))
     = Resolved None.
Proof.
  pose proof (C3_no_sale_no_signature_no_price Sample.zero
                (Sample.runtime_serving Sample.complete_doc) Sample.svc
                Sample.extraction 7 Sample.collection 7 mintSignature
                Sample.seller_address None (Some Sample.listing)
                (Some {| price := 0; token := AbiUint 0;
                         seller := AbiAddress Sample.seller_address |}))
    as [Hsig Hprice].
  split.
  - apply Hsig; [reflexivity | reflexivity |].
    right. eexists. split; reflexivity.
  - apply Hprice; [reflexivity |].
    right. eexists. split; reflexivity.
Defined.

(** C4. When the source URL carries a segment
    [https://superrare.com/<0x and forty hexadecimal digits>], [getArgs],
    [getPrice] and [getUIData] all work on the embedded address (of the
    leftmost such segment, and there is one as soon as there is any);
    when it carries none, or when [getPrice] is given no URL, they work on
    [SUPER_RARE_ADDRESS]. *)
Theorem C4_embedded_address_overrides_default
    (ZERO : string) (rt : Runtime) (this : SuperRareService)
    (url : string) :
  (forall a, first_embedded url a -> resolve_against ZERO rt this url a)
  /\ ((forall n a, ~ embedded_at url n a) ->
      resolve_against ZERO rt this url SUPER_RARE_ADDRESS)
  /\ ((exists n a, embedded_at url n a) -> exists a, first_embedded url a)
  /\ (forall c id sig user unit,
        trace (getPrice ZERO rt this c id sig user unit None)
        = [ReadContract SUPER_RARE_MINTER_ADDRESS SuperRareMarketplaceABI
             "tokenSalePrices"
             [ArgString SUPER_RARE_ADDRESS; ArgBigInt id; ArgString ZERO]]).
Proof.
  split; [| split; [| split]].
  - intros a Ha. rewrite <- (sellAddressOf_embedded url a Ha).
    apply resolve_against_sellAddressOf.
  - intros Hnone. rewrite <- (sellAddressOf_default url Hnone).
    apply resolve_against_sellAddressOf.
  - intros (n & a & Hn).
    destruct (contractMatch url) as [a'|] eqn:E.
    + exists a'. now apply contractMatch_first.
    + exfalso. exact (contractMatch_none url E n a Hn).
  - intros. apply getPrice_trace.
Qed.

Lemma C4_witness :
  resolve_against Sample.zero (Sample.runtime_serving Sample.complete_doc)
    Sample.svc Sample.listing Sample.collection
  /\ resolve_against Sample.zero
       (Sample.runtime_serving Sample.complete_doc)
       Sample.svc Sample.v2_listing SUPER_RARE_ADDRESS.
Proof.
  split.
  - apply (proj1 (C4_embedded_address_overrides_default Sample.zero
                    (Sample.runtime_serving Sample.complete_doc) Sample.svc
                    Sample.listing)).
    exists 0%nat. split.
    + exists "", "/art-7". repeat split.
    + intros. lia.
  - apply (proj1 (proj2 (C4_embedded_address_overrides_default Sample.zero
                    (Sample.runtime_serving Sample.complete_doc) Sample.svc
                    Sample.v2_listing))).
    apply contractMatch_none. reflexivity.
Defined.



(** C6. [getUIData] rejects whenever the metadata fetch fails (the
    request is rejected, the response is not ok, or its body is no JSON)
    or the fetched document has no [name] or no [image]; a document with a
    name and no image is rejected with "Preview asset url not found"
    (unless the creator read has already rejected the call). *)
Theorem C6_incomplete_metadata_is_fatal
    (rt : Runtime) (this : SuperRareService) (sig c : string)
    (id dst : Z) (url : string) :
  let sell := sellAddressOf (Some url) in
  let result := outcome (getUIData rt this sig c id dst url) in
  (metadata_failure rt this sell id -> exists e, result = Rejected e)
  /\ (forall uri resp props name,
        read_tokenURI (client this) sell id = Resolved uri ->
        fetch rt uri = Resolved resp ->
        ok resp = true ->
        json resp = Resolved (JObject props) ->
        lookup_prop "name" props = JsJson name ->
        truthy (JsJson name) = true ->
        lookup_prop "image" props = JsUndefined ->
        result = Rejected (Error "Preview asset url not found")
        \/ exists e,
            read_tokenCreator (client this) sell id = Rejected e
            /\ result = Rejected e).
Proof.
  intros sell result. subst sell result. split.
  - intros Hf. revert Hf. run_getUIData url. intros Hf.
    destruct Hf as [uri e Huri Hfetch
                   | uri resp Huri Hfetch Hok
                   | uri resp e Huri Hfetch Hjson
                   | uri resp doc k Huri Hfetch Hjson Hk Hlack].
    + rewrite Huri, Hfetch. repeat branch; eexists; reflexivity.
    + rewrite Huri, Hfetch, Hok. simpl. repeat branch; eexists; reflexivity.
    + rewrite Huri, Hfetch, Hjson. repeat branch; eexists; reflexivity.
    + rewrite Huri, Hfetch, Hjson.
      destruct doc; simpl in Hlack; simpl;
        try (repeat branch; eexists; reflexivity).
      destruct Hk as [-> | ->]; rewrite Hlack; simpl;
        repeat branch; eexists; reflexivity.
  - intros uri resp props name. run_getUIData url.
    intros Huri Hfetch Hok Hjson Hname Htruthy Himage.
    rewrite Huri, Hfetch, Hok, Hjson, Hname, Himage, Htruthy. simpl.
    repeat branch; simpl; try (left; reflexivity).
    right. eexists. split; reflexivity.
Qed.

Lemma C6_witness :
  exists e,
    outcome (getUIData (Sample.runtime_serving Sample.doc_without_image)
               Sample.svc mintSignature Sample.collection 7 137
               Sample.listing)
    = Rejected e.
Proof.
  apply (proj1 (C6_incomplete_metadata_is_fatal
                  (Sample.runtime_serving Sample.doc_without_image)
                  Sample.svc mintSignature Sample.collection 7 137
                  Sample.listing)).
  eapply field_missing with (k := "image");
    [reflexivity | reflexivity | reflexivity | right; reflexivity
    | reflexivity].
Defined.

(** C7. When [getUIData] resolves, it resolves to a [UIData] whose
    [nftName] and [nftUri] are the [name] and [image] of the fetched
    document and are neither missing nor the empty string; a document
    whose name or image is missing or empty makes the call reject. *)
Theorem C7_returned_name_and_uri_not_empty
    (rt : Runtime) (this : SuperRareService) (sig c : string)
    (id dst : Z) (url : string) :
  let sell := sellAddressOf (Some url) in
  let result := outcome (getUIData rt this sig c id dst url) in
  (forall r, result = Resolved r ->
     exists ui uri resp doc,
       r = Some ui
       /\ read_tokenURI (client this) sell id = Resolved uri
       /\ fetch rt uri = Resolved resp
       /\ json resp = Resolved doc
       /\ outcome (get_prop doc "name") = Resolved (nftName ui)
       /\ outcome (get_prop doc "image") = Resolved (nftUri ui)
       /\ truthy (nftName ui) = true
       /\ truthy (nftUri ui) = true
       /\ empty_or_missing (nftName ui) = false
       /\ empty_or_missing (nftUri ui) = false)
  /\ (forall uri resp doc k v,
        read_tokenURI (client this) sell id = Resolved uri ->
        fetch rt uri = Resolved resp ->
        json resp = Resolved doc ->
        k = "name" \/ k = "image" ->
        outcome (get_prop doc k) = Resolved v ->
        empty_or_missing v = true ->
        exists e, result = Rejected e).
Proof.
  intros sell result. subst sell result. split.
  - run_getUIData url.
    repeat branch; intros r Hr; simpl in Hr; try discriminate;
      injection Hr as <-;
      do 4 eexists; (split; [reflexivity |]);
      repeat (split; [eassumption || reflexivity |]);
      simpl;
      repeat split; try apply truthy_not_empty;
      match goal with
      | H : negb (truthy ?v) = false |- truthy ?v = true =>
          now destruct (truthy v)
      end.
  - intros uri resp doc k v. run_getUIData url.
    intros Huri Hfetch Hjson Hk Hv Hempty.
    rewrite Huri, Hfetch, Hjson.
    assert (Hfalse : truthy v = false).
    { destruct (truthy v) eqn:E; [| reflexivity].
      apply truthy_not_empty in E. congruence. }
    destruct doc; simpl in Hv; try discriminate;
      injection Hv as <-; simpl in Hfalse;
      destruct Hk as [-> | ->]; simpl; rewrite ?Hfalse; simpl;
      repeat branch; eexists; reflexivity.
Qed.

Lemma C7_witness :
  exists ui,
    outcome (getUIData (Sample.runtime_serving Sample.complete_doc)
               Sample.svc mintSignature Sample.collection 7 137
               Sample.listing)
    = Resolved (Some ui)
    /\ empty_or_missing (nftName ui) = false
    /\ empty_or_missing (nftUri ui) = false.
Proof.
  destruct (proj1 (C7_returned_name_and_uri_not_empty
                     (Sample.runtime_serving Sample.complete_doc)
                     Sample.svc mintSignature Sample.collection 7 137
                     Sample.listing) _ eq_refl)
    as (ui & uri & resp & doc & Hr & _ & _ & _ & _ & _ & _ & _ & Hname
        & Huri).
  exists ui. split; [| split]; [| exact Hname | exact Huri].
  injection Hr as <-. reflexivity.
Defined.

(** C8. When the selling contract is not the default one and its
    [owner()] read fails, the failure is caught and logged: [getUIData]
    goes on exactly as if the read had returned no owner, and with
    complete metadata it resolves to a [UIData] that has no
    [nftCreatorAddress]. *)
Theorem C8_owner_read_failure_is_not_fatal
    (rt : Runtime) (this : SuperRareService) (sig c : string)
    (id dst : Z) (url : string) (e : JsError) :
  let sell := sellAddressOf (Some url) in
  let call := getUIData rt this sig c id dst url in
  String.eqb (toLowerCase sell) (toLowerCase SUPER_RARE_ADDRESS) = false ->
  read_owner (client this) sell = Rejected e ->
  (forall uri resp doc name image,
      read_tokenURI (client this) sell id = Resolved uri ->
      fetch rt uri = Resolved resp ->
      ok resp = true ->
      json resp = Resolved doc ->
      outcome (get_prop doc "name") = Resolved name ->
      truthy name = true ->
      outcome (get_prop doc "image") = Resolved image ->
      truthy image = true ->
      outcome call
      = Resolved (Some {| ui_platformName := platformName this;
                          ui_platformLogoUrl := platformLogoUrl this;
                          nftName := name;
                          nftUri := image;
                          tokenStandard := "erc721";
                          nftCreatorAddress := None;
                          dstChainId := Number dst |}))
  /\ outcome call
     = outcome (getUIData rt (with_owner this (fun _ => Resolved ""))
                  sig c id dst url)
  /\ (forall r, outcome call = Resolved r ->
        exists ui, r = Some ui /\ nftCreatorAddress ui = None)
  /\ In (ConsoleLog "Not ownable contract, nftCreatorAddress not found")
        (trace call).
Proof.
  intros sell call. subst sell call.
  rewrite !getUIData_eq. cbv zeta. simpl client. simpl read_owner.
  simpl read_tokenURI. simpl platformName. simpl platformLogoUrl.
  generalize (sellAddressOf (Some url)). intros s Hneq Howner.
  rewrite Hneq, Howner.
  unfold get_prop, bind, try_catch, emit, ret, throw, trace, outcome.
  split; [| split; [| split]].
  - intros uri resp doc name image Huri Hfetch Hok Hjson Hname Hn Himage Hi.
    rewrite Huri, Hfetch, Hok, Hjson. simpl.
    destruct doc; simpl in Hname, Himage; try discriminate;
      injection Hname as <-; injection Himage as <-;
      simpl in Hn, Hi; try discriminate.
    simpl. rewrite Hn. simpl. rewrite Hi. reflexivity.
  - simpl. repeat branch; reflexivity.
  - simpl. repeat branch; intros r Hr; simpl in Hr; try discriminate;
      injection Hr as <-; eexists; split; reflexivity.
  - simpl. repeat branch; simpl; auto.
Qed.

Lemma C8_witness :
  outcome (getUIData (Sample.runtime_serving Sample.complete_doc)
             Sample.svc mintSignature Sample.collection 7 137
             Sample.listing)
  = Resolved (Some {| ui_platformName := "SuperRare";
                      ui_platformLogoUrl := "https://superrare.com/logo.png";
                      nftName := JsJson (JString "Art");
                      nftUri := JsJson (JString "ipfs://art");
                      tokenStandard := "erc721";
                      nftCreatorAddress := None;
                      dstChainId := Number 137 |}).
Proof.
  apply (proj1 (C8_owner_read_failure_is_not_fatal
                  (Sample.runtime_serving Sample.complete_doc)
                  Sample.svc mintSignature Sample.collection 7 137
                  Sample.listing (External "execution reverted")
                  eq_refl eq_refl)
           "https://meta.example/7.json"
           {| ok := true; json := Resolved Sample.complete_doc |}
           Sample.complete_doc);
    reflexivity.
Defined.

(** C9. [getMinterAddress] resolves to the constant
    [SUPER_RARE_MINTER_ADDRESS] for every contract and token, it is never
    [undefined], and it asks nothing of the chain. *)
Theorem C9_getMinterAddress_constant
    (this : SuperRareService) (contract : string) (tokenId : Z) :
  outcome (getMinterAddress this contract tokenId)
  = Resolved (Some SUPER_RARE_MINTER_ADDRESS)
  /\ outcome (getMinterAddress this contract tokenId) <> Resolved None
  /\ trace (getMinterAddress this contract tokenId) = []
  /\ SUPER_RARE_MINTER_ADDRESS = "0x6D7c44773C52D396F43c2D511B81aa168E9a7a42".
Proof.
  repeat split. discriminate.
Qed.


(** ** Further properties of the service *)

Lemma length_append (a b : string) :
  String.length (a ++ b) = (String.length a + String.length b)%nat.
Proof.
  induction a as [|x a IH]; simpl; [reflexivity | now rewrite IH].
Qed.

Lemma contract_address_length (a : string) :
  is_contract_address a = true -> String.length a = 42%nat.
Proof.
  unfold is_contract_address.
  destruct (strip_prefix "0x" a) as [h|] eqn:E; [| discriminate].
  apply strip_prefix_spec in E. subst a.
  intros H. apply andb_true_iff in H as [H _]. apply Nat.eqb_eq in H.
  simpl. now rewrite H.
Qed.

Lemma sellAddressOf_is_address (url : option string) :
  is_contract_address (sellAddressOf url) = true.
Proof.
  unfold sellAddressOf. destruct url as [url|]; [| reflexivity].
  destruct (negb (String.eqb url "")); [| reflexivity].
  destruct (contractMatch url) as [a|] eqn:E; [| reflexivity].
  apply contractMatch_first in E.
  destruct E as (n & (pre & post & _ & _ & Ha) & _). exact Ha.
Qed.

(** X1. [getSalePrices] resolves to [undefined] exactly when the
    marketplace's answer does not have three entries; a record it resolves
    to has the first entry as its seller and the third entry both as its
    token and, converted by [BigInt], as its price. *)
Theorem X1_getSalePrices_record
    (ZERO : string) (rt : Runtime) (this : SuperRareService)
    (a : string) (id : Z) (reply : list AbiValue) :
  read_tokenSalePrices (client this) SUPER_RARE_MINTER_ADDRESS a id ZERO
  = Resolved reply ->
  (outcome (getSalePrices ZERO rt this a id) = Resolved None
   <-> List.length reply <> 3%nat)
  /\ (forall sp,
        outcome (getSalePrices ZERO rt this a id) = Resolved (Some sp) ->
        nth_error reply 0 = Some (seller sp)
        /\ nth_error reply 2 = Some (token sp)
        /\ outcome (BigInt rt (token sp)) = Resolved (price sp)).
Proof.
  intros Hread. unfold getSalePrices, emit, bind, outcome. rewrite Hread.
  destruct reply as [|s0 [|s1 [|s2 [|s3 l]]]]; simpl;
    try (split; [split; [intros _; discriminate | reflexivity]
                | intros sp; discriminate]).
  destruct s2 as [x|n]; simpl.
  - destruct (BigInt_of_string rt x) as [z|] eqn:E; simpl.
    + split; [split; [discriminate | intros H; now elim H] |].
      intros sp [= <-]. simpl. rewrite E. repeat split.
    + split; [split; [discriminate | intros H; now elim H] |].
      intros sp; discriminate.
  - split; [split; [discriminate | intros H; now elim H] |].
    intros sp [= <-]. repeat split.
Qed.

Lemma X1_witness :
  outcome (getSalePrices Sample.zero
             (Sample.runtime_serving Sample.complete_doc) Sample.svc
             SUPER_RARE_ADDRESS 7)
  <> Resolved None.
Proof.
  intros H.
  apply (proj1 (X1_getSalePrices_record Sample.zero
                  (Sample.runtime_serving Sample.complete_doc) Sample.svc
                  SUPER_RARE_ADDRESS 7 _ eq_refl)) in H.
  apply H. reflexivity.
Defined.

(** X2. [getMintSignature] rejects with a [SyntaxError], before any chain
    read, when the extraction's token id is no integer literal; otherwise
    it makes exactly one read, of the native-currency sale record of the
    extraction's own contract address and token id, and can only resolve
    to [undefined] or to the [buy] signature. *)
Theorem X2_getMintSignature_reads_extraction_record
    {TChain TService : Type} (ZERO : string) (rt : Runtime)
    (this : SuperRareService) (nftDetails : NFTExtraction TChain TService) :
  match BigInt_of_string rt (nftId nftDetails) with
  | None =>
      trace (getMintSignature ZERO rt this nftDetails) = []
      /\ exists m,
          outcome (getMintSignature ZERO rt this nftDetails)
          = Rejected (SyntaxError m)
  | Some id =>
      trace (getMintSignature ZERO rt this nftDetails)
      = [ReadContract SUPER_RARE_MINTER_ADDRESS SuperRareMarketplaceABI
           "tokenSalePrices"
           [ArgString (contractAddress nftDetails); ArgBigInt id;
            ArgString ZERO]]
      /\ forall r,
          outcome (getMintSignature ZERO rt this nftDetails) = Resolved r ->
          r = None \/ r = Some mintSignature
  end.
Proof.
  unfold getMintSignature.
  destruct (BigInt_of_string rt (nftId nftDetails)) as [id|].
  - pose proof (getSalePrices_trace ZERO rt this
                  (contractAddress nftDetails) id) as Ht.
    destruct (getSalePrices _ _ _ _ _) as [t o]. unfold trace in *.
    simpl in Ht. subst t. unfold bind, outcome.
    destruct o as [sp|e]; simpl.
    + destruct (negb (isSaleValid sp)); simpl;
        (split; [reflexivity | intros r [= <-]; auto]).
    + split; [reflexivity | intros r; discriminate].
  - split; [reflexivity | eexists; reflexivity].
Qed.

(** X3. When the source URL resolves to the extraction's contract address
    and the token id is the extraction's, [getMintSignature] and
    [getPrice] agree: one gives the signature exactly when the other
    gives a price, one gives [undefined] exactly when the other does, and
    they reject with the same errors. *)
Theorem X3_signature_and_price_agree
    {TChain TService : Type} (ZERO : string) (rt : Runtime)
    (this : SuperRareService) (nftDetails : NFTExtraction TChain TService)
    (id : Z) (c sig user : string) (unit : option Z)
    (url : option string) :
  BigInt_of_string rt (nftId nftDetails) = Some id ->
  sellAddressOf url = contractAddress nftDetails ->
  (outcome (getMintSignature ZERO rt this nftDetails)
   = Resolved (Some mintSignature)
   <-> exists total,
        outcome (getPrice ZERO rt this c id sig user unit url)
        = Resolved (Some total))
  /\ (outcome (getMintSignature ZERO rt this nftDetails) = Resolved None
      <-> outcome (getPrice ZERO rt this c id sig user unit url)
          = Resolved None)
  /\ (forall err,
        outcome (getMintSignature ZERO rt this nftDetails) = Rejected err
        <-> outcome (getPrice ZERO rt this c id sig user unit url)
            = Rejected err).
Proof.
  intros Hid Hsell. rewrite getPrice_eq. unfold getMintSignature.
  rewrite Hid, Hsell.
  destruct (getSalePrices _ _ _ _ _) as [t o]. unfold bind, outcome.
  destruct o as [sp|e]; simpl.
  - destruct (isSaleValid sp) eqn:Hv; simpl.
    + destruct sp as [sp|]; [| discriminate]. simpl.
      split; [| split].
      * split; [intros _; eexists; reflexivity | reflexivity].
      * split; discriminate.
      * intros err. split; discriminate.
    + split; [| split].
      * split; [discriminate | intros (total & H); discriminate].
      * split; reflexivity.
      * intros err. split; discriminate.
  - split; [| split].
    + split; [discriminate | intros (total & H); discriminate].
    + split; discriminate.
    + intros err. split; intros [= <-]; reflexivity.
Qed.

Lemma X3_witness :
  outcome (getMintSignature Sample.zero
             (Sample.runtime_serving Sample.complete_doc) Sample.svc
             Sample.default_extraction)
  = Resolved (Some mintSignature).
Proof.
  apply (proj1 (X3_signature_and_price_agree Sample.zero
                  (Sample.runtime_serving Sample.complete_doc) Sample.svc
                  Sample.default_extraction 7 Sample.collection
                  mintSignature Sample.seller_address (Some 2) None
                  eq_refl eq_refl)).
  exists 102. reflexivity.
Defined.

(** X4. A rejected sale-record read is passed on unchanged: [getPrice]
    and [getMintSignature] reject with the very error of the read.
    [getPrice] rejects in no other case, save for an answer whose third
    entry is a string [BigInt] cannot convert. *)
Theorem X4_read_errors_pass_through
    {TChain TService : Type} (ZERO : string) (rt : Runtime)
    (this : SuperRareService) (nftDetails : NFTExtraction TChain TService)
    (tokenId : Z) (c : string) (id : Z) (sig user : string)
    (unit : option Z) (url : option string) (err : JsError) :
  (read_tokenSalePrices (client this) SUPER_RARE_MINTER_ADDRESS
     (sellAddressOf url) id ZERO = Rejected err ->
   outcome (getPrice ZERO rt this c id sig user unit url) = Rejected err)
  /\ (BigInt_of_string rt (nftId nftDetails) = Some tokenId ->
      read_tokenSalePrices (client this) SUPER_RARE_MINTER_ADDRESS
        (contractAddress nftDetails) tokenId ZERO = Rejected err ->
      outcome (getMintSignature ZERO rt this nftDetails) = Rejected err)
  /\ (outcome (getPrice ZERO rt this c id sig user unit url) = Rejected err ->
      read_tokenSalePrices (client this) SUPER_RARE_MINTER_ADDRESS
        (sellAddressOf url) id ZERO = Rejected err
      \/ exists s0 s1 x,
          read_tokenSalePrices (client this) SUPER_RARE_MINTER_ADDRESS
            (sellAddressOf url) id ZERO
          = Resolved [s0; s1; AbiAddress x]
          /\ BigInt_of_string rt x = None).
Proof.
  split; [| split].
  - intros H. rewrite getPrice_eq. unfold getSalePrices, emit, bind, outcome.
    now rewrite H.
  - intros Hid H. unfold getMintSignature, getSalePrices, emit, bind, outcome.
    now rewrite Hid, H.
  - rewrite getPrice_eq. unfold getSalePrices, emit, bind, outcome, BigInt.
    destruct (read_tokenSalePrices _ _ _ _ _) as [reply|e]; simpl.
    + destruct reply as [|s0 [|s1 [|s2 [|s3 l]]]]; simpl;
        try discriminate.
      destruct s2 as [x|n]; simpl.
      * destruct (BigInt_of_string rt x) as [z|] eqn:E; simpl.
        -- destruct (z =? 0); discriminate.
        -- intros _. right. exists s0, s1, x. auto.
      * destruct (Z.of_N n =? 0); discriminate.
    + intros [= <-]. now left.
Qed.

Lemma X4_witness :
  outcome (getPrice Sample.zero
             (Sample.runtime_serving Sample.complete_doc)
             Sample.offline_svc Sample.collection 7 mintSignature
             Sample.seller_address None None)
  = Rejected (External "timeout")
  /\ outcome (getMintSignature Sample.zero
               (Sample.runtime_serving Sample.complete_doc)
               Sample.offline_svc Sample.extraction)
     = Rejected (External "timeout").
Proof.
  pose proof (X4_read_errors_pass_through Sample.zero
                (Sample.runtime_serving Sample.complete_doc)
                Sample.offline_svc Sample.extraction 7 Sample.collection 7
                mintSignature Sample.seller_address None None
                (External "timeout")) as (Hprice & Hsig & _).
  split; [apply Hprice; reflexivity | apply Hsig; reflexivity].
Defined.

(** X5. On the default contract the creator comes from [tokenCreator]
    and that read is not guarded: when it rejects, [getUIData] rejects
    with the same error, having made that one read only (no [tokenURI]
    read, no fetch, no log). *)
Theorem X5_tokenCreator_failure_is_fatal
    (rt : Runtime) (this : SuperRareService) (sig c : string)
    (id dst : Z) (url : string) (err : JsError) :
  let sell := sellAddressOf (Some url) in
  is_default_contract sell = true ->
  read_tokenCreator (client this) sell id = Rejected err ->
  getUIData rt this sig c id dst url
  = ([ReadContract sell SuperRareV2ABI "tokenCreator" [ArgBigInt id]],
     Rejected err).
Proof.
  intros sell. subst sell. unfold is_default_contract.
  rewrite getUIData_eq. cbv zeta.
  generalize (sellAddressOf (Some url)). intros s Hdef Hread.
  rewrite Hdef. unfold bind, emit. now rewrite Hread.
Qed.

Lemma X5_witness :
  getUIData (Sample.runtime_serving Sample.complete_doc) Sample.offline_svc
    mintSignature Sample.collection 7 137 Sample.v2_listing
  = ([ReadContract SUPER_RARE_ADDRESS SuperRareV2ABI "tokenCreator"
        [ArgBigInt 7]],
     Rejected (External "timeout")).
Proof.
  apply (X5_tokenCreator_failure_is_fatal
           (Sample.runtime_serving Sample.complete_doc) Sample.offline_svc
           mintSignature Sample.collection 7 137 Sample.v2_listing
           (External "timeout")); reflexivity.
Defined.

(** X6. [getUIData] fetches at most once, and only the URI the
    [tokenURI] read of the selling contract returned; it cannot resolve
    without that fetch. *)
Theorem X6_getUIData_fetches_the_token_uri
    (rt : Runtime) (this : SuperRareService) (sig c : string)
    (id dst : Z) (url : string) :
  let sell := sellAddressOf (Some url) in
  let call := getUIData rt this sig c id dst url in
  (fetches (trace call) = []
   \/ exists uri,
       read_tokenURI (client this) sell id = Resolved uri
       /\ fetches (trace call) = [uri])
  /\ (forall r, outcome call = Resolved r -> fetches (trace call) <> []).
Proof.
  intros sell call. subst sell call. run_getUIData url. split.
  - repeat branch; simpl;
      first [ now left | right; eexists; split; reflexivity ].
  - repeat branch; simpl; intros r Hr; discriminate.
Qed.

(** X7. [getUIData] logs only the message of the caught [owner()]
    failure, at most once, and exactly when the selling contract is not
    the default one and its [owner()] read rejects. *)
Theorem X7_log_iff_owner_read_failed
    (rt : Runtime) (this : SuperRareService) (sig c : string)
    (id dst : Z) (url : string) :
  let sell := sellAddressOf (Some url) in
  let call := getUIData rt this sig c id dst url in
  (logged (trace call)
   = ["Not ownable contract, nftCreatorAddress not found"]
   <-> is_default_contract sell = false
       /\ exists e, read_owner (client this) sell = Rejected e)
  /\ (logged (trace call) = []
      <-> is_default_contract sell = true
          \/ exists o, read_owner (client this) sell = Resolved o).
Proof.
  intros sell call. subst sell call. unfold is_default_contract.
  run_getUIData url.
  destruct (String.eqb (toLowerCase s) (toLowerCase SUPER_RARE_ADDRESS)).
  - split; (split; [| intros H]).
    + repeat branch; simpl; discriminate.
    + destruct H; discriminate.
    + auto.
    + repeat branch; reflexivity.
  - destruct (read_owner (client this) s) as [o|e].
    + split; (split; [| intros H]).
      * repeat branch; simpl; discriminate.
      * destruct H as (_ & e' & He'). discriminate.
      * eauto.
      * repeat branch; reflexivity.
    + split; (split; [| intros H]).
      * eauto.
      * repeat branch; reflexivity.
      * repeat branch; simpl; discriminate.
      * destruct H as [H | (o & Ho)]; discriminate.
Qed.

(** X8. A [UIData] that [getUIData] resolves to shows the service's own
    platform name and logo, the token standard "erc721" and, as its
    destination chain, the double [Number] makes of the requested chain
    id.  Its creator is the token's creator on the default
    contract and the contract's owner on any other, left out when that
    address is empty or the [owner()] read failed. *)
Theorem X8_resolved_UIData_fields
    (rt : Runtime) (this : SuperRareService) (sig c : string)
    (id dst : Z) (url : string) (ui : UIData) :
  let sell := sellAddressOf (Some url) in
  outcome (getUIData rt this sig c id dst url) = Resolved (Some ui) ->
  ui_platformName ui = platformName this
  /\ ui_platformLogoUrl ui = platformLogoUrl this
  /\ tokenStandard ui = "erc721"
  /\ dstChainId ui = Number dst
  /\ (if is_default_contract sell
      then exists o,
             read_tokenCreator (client this) sell id = Resolved o
             /\ nftCreatorAddress ui = creator_field o
      else match read_owner (client this) sell with
           | Resolved o => nftCreatorAddress ui = creator_field o
           | Rejected _ => nftCreatorAddress ui = None
           end).
Proof.
  intros sell. subst sell. unfold is_default_contract, creator_field.
  run_getUIData url.
  destruct (String.eqb (toLowerCase s) (toLowerCase SUPER_RARE_ADDRESS)).
  - destruct (read_tokenCreator (client this) s id) as [o|e];
      repeat branch; simpl; intros Hr; try discriminate;
      injection Hr as <-; simpl; repeat split;
      eexists; (split; [reflexivity |]);
      match goal with
      | H : negb (String.eqb ?o "") = _ |- _ =>
          destruct (String.eqb o ""); simpl in H; congruence
      end.
  - destruct (read_owner (client this) s) as [o|e];
      repeat branch; simpl; intros Hr; try discriminate;
      injection Hr as <-; simpl; repeat split;
      match goal with
      | H : negb (String.eqb ?o "") = _ |- _ =>
          destruct (String.eqb o ""); simpl in H; congruence
      end.
Qed.

Lemma X8_witness :
  exists ui,
    outcome (getUIData (Sample.runtime_serving Sample.complete_doc)
               Sample.svc mintSignature Sample.collection 7 137
               Sample.v2_listing)
    = Resolved (Some ui)
    /\ nftCreatorAddress ui = Some Sample.creator.
Proof.
  eexists. split; [reflexivity |].
  destruct (X8_resolved_UIData_fields
              (Sample.runtime_serving Sample.complete_doc) Sample.svc
              mintSignature Sample.collection 7 137 Sample.v2_listing
              _ eq_refl)
    as (_ & _ & _ & _ & o & Ho & Hc).
  simpl in Ho. injection Ho as <-. exact Hc.
Defined.

(** X9. For a valid sale of amount [P], the total [getPrice] resolves to
    lies, for a unit count that is not negative, between [P * unit] and
    103 percent of it; it is zero exactly for zero units; it is negative
    for a negative unit count; and for [P] up to 33 the fee truncates to
    nothing, the total being [P * unit]. *)
Theorem X9_getPrice_bounds
    (ZERO : string) (rt : Runtime) (this : SuperRareService)
    (c : string) (id : Z) (sig user : string)
    (unit : option Z) (url : option string) (s0 s1 : AbiValue) (p : N) :
  read_tokenSalePrices (client this) SUPER_RARE_MINTER_ADDRESS
    (sellAddressOf url) id ZERO = Resolved [s0; s1; AbiUint p] ->
  p <> 0%N ->
  let P := Z.of_N p in
  let U := match unit with Some u => u | None => 1 end in
  exists total,
    outcome (getPrice ZERO rt this c id sig user unit url)
    = Resolved (Some total)
    /\ (0 <= U -> P * U <= total /\ 100 * total <= 103 * (P * U))
    /\ (total = 0 <-> U = 0)
    /\ (U < 0 -> total < 0)
    /\ (P <= 33 -> total = P * U)
    /\ (34 <= P -> 0 < U -> P * U < total).
Proof.
  intros Hread Hp P U.
  assert (HP : 0 < P) by (unfold P; lia).
  eexists. split.
  - rewrite getPrice_eq. unfold getSalePrices, emit, bind, outcome.
    rewrite Hread. simpl.
    destruct (Z.of_N p =? 0) eqn:E; [apply Z.eqb_eq in E; lia |].
    reflexivity.
  - fold P. fold U. unfold getFees.
    rewrite (Z.quot_div_nonneg (P * 3) 100) by lia.
    pose proof (Z.div_mod (P * 3) 100 ltac:(lia)) as Hdm.
    pose proof (Z.mod_pos_bound (P * 3) 100 ltac:(lia)) as Hmod.
    set (q := (P * 3) / 100) in *.
    assert (Hq : 0 <= q) by (apply Z.div_pos; lia).
    assert (Hq' : 100 * q <= 3 * P) by lia.
    repeat split.
    + nia.
    + nia.
    + intros H. nia.
    + intros ->. ring.
    + intros HU. nia.
    + intros H33. assert (q = 0) by lia. nia.
    + intros H34 HU. assert (1 <= q) by lia. nia.
Qed.

Lemma X9_witness :
  exists total,
    outcome (getPrice Sample.zero
               (Sample.runtime_serving Sample.complete_doc) Sample.svc
               Sample.collection 7 mintSignature Sample.seller_address
               (Some 0) None)
    = Resolved (Some total)
    /\ total = 0.
Proof.
  destruct (X9_getPrice_bounds Sample.zero
              (Sample.runtime_serving Sample.complete_doc) Sample.svc
              Sample.collection 7 mintSignature Sample.seller_address
              (Some 0) None (AbiAddress Sample.seller_address)
              (AbiAddress Sample.zero) 50%N eq_refl ltac:(discriminate))
    as (total & Hout & _ & Hzero & _).
  exists total. split; [exact Hout | now apply Hzero].
Defined.

(** X10. The contract address [getArgs] passes first is always written
    as [0x] and forty hexadecimal digits (forty-two characters), whatever
    the source URL is. *)
Theorem X10_getArgs_address_well_formed
    (ZERO : string) (this : SuperRareService) (contractAddress : string)
    (tokenId : Z) (senderAddress signature : string) (price quantity : Z)
    (profileOwnerAddress sourceUrl : string) :
  exists sellAddress rest,
    outcome (getArgs ZERO this contractAddress tokenId senderAddress
               signature price quantity profileOwnerAddress sourceUrl)
    = Resolved (ArgString sellAddress :: rest)
    /\ is_contract_address sellAddress = true
    /\ String.length sellAddress = 42%nat.
Proof.
  rewrite getArgs_eq. do 2 eexists. split; [reflexivity |].
  pose proof (sellAddressOf_is_address (Some sourceUrl)) as H.
  split; [exact H | now apply contract_address_length].
Qed.

(** X11. An embedded address needs sixty-four characters from where its
    segment starts, so for a source URL shorter than that the three
    methods work on [SUPER_RARE_ADDRESS]. *)
Theorem X11_short_url_resolves_to_default
    (ZERO : string) (rt : Runtime) (this : SuperRareService)
    (url : string) :
  (forall n a, embedded_at url n a -> (n + 64 <= String.length url)%nat)
  /\ ((String.length url < 64)%nat ->
      resolve_against ZERO rt this url SUPER_RARE_ADDRESS).
Proof.
  assert (Hlen : forall n a, embedded_at url n a ->
                             (n + 64 <= String.length url)%nat).
  { intros n a (pre & post & -> & Hn & Ha).
    apply contract_address_length in Ha.
    rewrite !length_append, Hn, Ha. simpl. lia. }
  split; [exact Hlen |].
  intros Hshort.
  rewrite <- (sellAddressOf_default url).
  - apply resolve_against_sellAddressOf.
  - intros n a Hn. apply Hlen in Hn. lia.
Qed.

Lemma X11_witness :
  resolve_against Sample.zero (Sample.runtime_serving Sample.complete_doc)
    Sample.svc Sample.v2_listing SUPER_RARE_ADDRESS.
Proof.
  apply (proj2 (X11_short_url_resolves_to_default Sample.zero
                  (Sample.runtime_serving Sample.complete_doc) Sample.svc
                  Sample.v2_listing)).
  simpl. lia.
Defined.

(** X12. Which creator read [getUIData] starts with is decided without
    regard to letter case: a URL that embeds the default contract's
    address in any capitalisation is handled as the default contract
    ([tokenCreator] of SuperRareV2, on the address as the URL spells it);
    every other selling contract gets the [owner()] read. *)
Theorem X12_default_contract_any_case
    (rt : Runtime) (this : SuperRareService) (sig c : string)
    (id dst : Z) (url : string) :
  let sell := sellAddressOf (Some url) in
  hd_error (trace (getUIData rt this sig c id dst url))
  = Some (if is_default_contract sell
          then ReadContract sell SuperRareV2ABI "tokenCreator" [ArgBigInt id]
          else ReadContract sell OwnableABI "owner" [])
  /\ (forall a,
        first_embedded url a ->
        toLowerCase a = SUPER_RARE_ADDRESS ->
        sell = a /\ is_default_contract sell = true).
Proof.
  intros sell. subst sell. split.
  - unfold is_default_contract. run_getUIData url.
    repeat branch; reflexivity.
  - intros a Ha Hlow. rewrite (sellAddressOf_embedded url a Ha).
    split; [reflexivity |]. unfold is_default_contract.
    rewrite Hlow. reflexivity.
Qed.

Lemma X12_witness :
  sellAddressOf (Some Sample.capitals_listing) = Sample.capitals
  /\ is_default_contract (sellAddressOf (Some Sample.capitals_listing))
     = true.
Proof.
  apply (proj2 (X12_default_contract_any_case
                  (Sample.runtime_serving Sample.complete_doc) Sample.svc
                  mintSignature Sample.collection 7 137
                  Sample.capitals_listing)).
  - exists 0%nat. split.
    + exists "", "/art-7". repeat split.
    + intros. lia.
  - reflexivity.
Defined.

(** X13. For an answer of the marketplace whose third entry is an
    unsigned amount, [getSalePrices] resolves to a record with that
    amount as its price, which is not negative, and [isSaleValid] holds
    of the record exactly when the amount is strictly positive. *)
Theorem X13_on_chain_sale_valid_iff_positive
    (ZERO : string) (rt : Runtime) (this : SuperRareService)
    (a : string) (id : Z) (s0 s1 : AbiValue) (p : N) :
  read_tokenSalePrices (client this) SUPER_RARE_MINTER_ADDRESS a id ZERO
  = Resolved [s0; s1; AbiUint p] ->
  exists sp,
    outcome (getSalePrices ZERO rt this a id) = Resolved (Some sp)
    /\ price sp = Z.of_N p
    /\ 0 <= price sp
    /\ (isSaleValid (Some sp) = true <-> 0 < price sp).
Proof.
  intros Hread. unfold getSalePrices, emit, bind, outcome. rewrite Hread.
  simpl. eexists. split; [reflexivity |]. simpl.
  split; [reflexivity |]. split; [lia |].
  destruct (Z.of_N p =? 0) eqn:E.
  - apply Z.eqb_eq in E. split; [discriminate | lia].
  - apply Z.eqb_neq in E. split; [lia | reflexivity].
Qed.

Lemma X13_witness :
  exists sp,
    outcome (getSalePrices Sample.zero
               (Sample.runtime_serving Sample.complete_doc) Sample.svc
               SUPER_RARE_ADDRESS 7)
    = Resolved (Some sp)
    /\ price sp = 50.
Proof.
  destruct (X13_on_chain_sale_valid_iff_positive Sample.zero
              (Sample.runtime_serving Sample.complete_doc) Sample.svc
              SUPER_RARE_ADDRESS 7 (AbiAddress Sample.seller_address)
              (AbiAddress Sample.zero) 50%N eq_refl)
    as (sp & Hout & Hprice & _).
  exists sp. split; [exact Hout | exact Hprice].
Defined.

(** X14. Once the creator lookup has passed, the metadata steps of
    [getUIData] fail in program order and each with its own error: a
    rejected [tokenURI] read or fetch and an unparsable body pass their
    error on; a response that is not ok gives "Token data not found"
    whatever its body holds; a [null] document gives a [TypeError]; a
    missing or falsy name gives "Collection name not found" whatever
    the image is. *)
Theorem X14_metadata_errors_in_order
    (rt : Runtime) (this : SuperRareService) (sig c : string)
    (id dst : Z) (url : string) :
  let sell := sellAddressOf (Some url) in
  let result := outcome (getUIData rt this sig c id dst url) in
  creator_lookup_passes this sell id ->
  (forall e,
      read_tokenURI (client this) sell id = Rejected e ->
      result = Rejected e)
  /\ (forall uri,
        read_tokenURI (client this) sell id = Resolved uri ->
        (forall e, fetch rt uri = Rejected e -> result = Rejected e)
        /\ (forall resp,
              fetch rt uri = Resolved resp ->
              (ok resp = false ->
               result = Rejected (Error "Token data not found"))
              /\ (ok resp = true ->
                  (forall e, json resp = Rejected e -> result = Rejected e)
                  /\ (json resp = Resolved JNull ->
                      exists m, result = Rejected (TypeError m))
                  /\ (forall doc name,
                        json resp = Resolved doc ->
                        outcome (get_prop doc "name") = Resolved name ->
                        truthy name = false ->
                        result
                        = Rejected (Error "Collection name not found"))))).
Proof.
  intros sell result. subst sell result.
  unfold creator_lookup_passes, is_default_contract.
  run_getUIData url. intros Hpass.
  assert (Howner :
    (String.eqb (toLowerCase s) (toLowerCase SUPER_RARE_ADDRESS) = true
     /\ exists o, read_tokenCreator (client this) s id = Resolved o)
    \/ String.eqb (toLowerCase s) (toLowerCase SUPER_RARE_ADDRESS) = false).
  { destruct (String.eqb _ _); [left | now right].
    destruct Hpass as [H | H]; [discriminate | auto]. }
  clear Hpass.
  destruct Howner as [(-> & creator & ->) | ->];
    [| destruct (read_owner (client this) s) as [owner | failure]];
    (split;
     [ intros e ->; reflexivity
     | intros uri ->; split;
       [ intros e ->; reflexivity
       | intros resp ->; split;
         [ intros ->; reflexivity
         | intros ->; simpl; split; [| split];
           [ intros e ->; reflexivity
           | intros ->; eexists; reflexivity
           | intros doc name -> Hname Hfalsy;
             destruct doc; simpl in Hname; try discriminate;
             injection Hname as <-; simpl in Hfalsy; simpl;
             rewrite ?Hfalsy; reflexivity ] ] ] ]).
Qed.

Lemma X14_witness :
  outcome (getUIData
             (Sample.runtime_answering
                {| ok := false; json := Resolved Sample.complete_doc |})
             Sample.svc mintSignature Sample.collection 7 137
             Sample.listing)
  = Rejected (Error "Token data not found").
Proof.
  refine (proj1 (proj2 (proj2 (X14_metadata_errors_in_order
                  (Sample.runtime_answering
                     {| ok := false; json := Resolved Sample.complete_doc |})
                  Sample.svc mintSignature Sample.collection 7 137
                  Sample.listing _) _ eq_refl) _ eq_refl) eq_refl).
  left. reflexivity.
Defined.

(** X15. [getUIData] resolves exactly when the creator lookup passes, the
    [tokenURI] read and the fetch resolve, the response is ok, its body
    parses, and the document has a truthy [name] and a truthy [image];
    it never resolves to [undefined]. *)
Theorem X15_getUIData_resolves_iff
    (rt : Runtime) (this : SuperRareService) (sig c : string)
    (id dst : Z) (url : string) :
  let sell := sellAddressOf (Some url) in
  let result := outcome (getUIData rt this sig c id dst url) in
  ((exists ui, result = Resolved (Some ui))
   <-> creator_lookup_passes this sell id
       /\ exists uri resp doc name image,
           read_tokenURI (client this) sell id = Resolved uri
           /\ fetch rt uri = Resolved resp
           /\ ok resp = true
           /\ json resp = Resolved doc
           /\ outcome (get_prop doc "name") = Resolved name
           /\ truthy name = true
           /\ outcome (get_prop doc "image") = Resolved image
           /\ truthy image = true)
  /\ result <> Resolved None.
Proof.
  intros sell result. subst sell result.
  unfold creator_lookup_passes, is_default_contract.
  run_getUIData url. split; [split |].
  - repeat branch; intros (ui & Hr); simpl in Hr; try discriminate;
      (split;
       [ first [ now left | right; eexists; reflexivity ]
       | do 5 eexists;
         repeat (split;
                 [ first [ eassumption | reflexivity
                         | match goal with
                           | H : negb ?b = false |- ?b = true =>
                               now destruct b
                           end ] |]);
         match goal with
         | H : negb ?b = false |- ?b = true => now destruct b
         end ]).
  - intros (Hpass & uri & resp & doc & name & image
            & -> & -> & -> & -> & Hname & Hn & Himage & Hi).
    assert (Howner :
      (String.eqb (toLowerCase s) (toLowerCase SUPER_RARE_ADDRESS) = true
       /\ exists o, read_tokenCreator (client this) s id = Resolved o)
      \/ String.eqb (toLowerCase s) (toLowerCase SUPER_RARE_ADDRESS)
         = false).
    { destruct (String.eqb _ _); [left | now right].
      destruct Hpass as [H | H]; [discriminate | auto]. }
    clear Hpass.
    destruct doc; simpl in Hname, Himage; try discriminate;
      injection Hname as <-; injection Himage as <-;
      simpl in Hn, Hi; try discriminate.
    destruct Howner as [(-> & creator & ->) | ->];
      [| destruct (read_owner (client this) s) as [owner | failure]];
      simpl; rewrite Hn; simpl; rewrite Hi; simpl;
      eexists; reflexivity.
  - repeat branch; simpl; discriminate.
Qed.
